(** * The Forge Viewer utilities facade ([src/Utilities.js])

    A shallow embedding of the [Utilities] class: a thin layer that turns
    the callback interface of the viewer engine into promises and
    exceptions.  The engine itself (document loader, object tree, fragment
    list, overlay scenes, ray caster) is not part of the repository; the
    parts of it the facade talks to are modelled in [Module Engine] from
    the data model and the external-interface section of the specification.
    The methods of the class are embedded in [Module Utilities], one
    definition per method, under the names the source gives them. *)

From Stdlib Require Import ZArith String List Lia Qcanon.
From stdpp Require Import base option list strings pretty gmap sorting numbers.

Set Warnings "-register-all".

(** ** JavaScript values the facade handles *)

Module JS.

(** How a synchronous call ends: it returns, or it throws [new Error(message)]. *)
Inductive Completion (A : Type) : Type :=
| Normal (a : A)
| Throw (message : string).
Arguments Normal {A} a.
Arguments Throw {A} message.

(** How a promise is settled: [resolve(a)] or [reject(reason)]. *)
Inductive Promise (A : Type) : Type :=
| Resolved (a : A)
| Rejected (reason : string).
Arguments Resolved {A} a.
Arguments Rejected {A} reason.

(** [s.startsWith(p)]. *)
Fixpoint startsWith (p s : string) : bool :=
  match p, s with
  | EmptyString, _ => true
  | String a p', String b s' => if decide (a = b) then startsWith p' s' else false
  | String _ _, EmptyString => false
  end.

(** [s.includes(p)]: [p] occurs in [s] as a contiguous run of characters,
    compared character by character (so with regard to letter case). *)
Fixpoint includes (p s : string) : bool :=
  startsWith p s ||
  match s with
  | EmptyString => false
  | String _ s' => includes p s'
  end.

(** [arr[i]] for an integer-valued number [i]: [undefined] ([None]) when
    [i] is negative or not below [arr.length]. *)
Definition at_index {A : Type} (arr : list A) (i : Z) : option A :=
  if (i <? 0)%Z then None else arr !! Z.to_nat i.

(** [arr.push(x)] on an array threaded as a value. *)
Definition push {A : Type} (x : A) (arr : list A) : list A := arr ++ [x].

(** *** Rendering of a number in a template literal

    An integer-valued number is a double: from 2^53 on not every integer
    is one, and the digits printed are the fewest that read back as the
    same double, followed by zeros, or by an exponent from 10^21 on. *)

(** The decimal [c] reads back as the double [x] (a positive integer a
    double holds): it lies within half a step of [x] among the doubles,
    the ends counting when the mantissa of [x] is even.  Distances are
    taken in quarters, so that they stay integers. *)
Definition readsBackAs (x c : Z) : bool :=
  let q := Z.max 0 (Z.log2 x - 52) in
  let m := (x / 2 ^ q)%Z in
  let up := (2 ^ (q + 1))%Z in
  let low := if (m =? 2 ^ 52)%Z then (2 ^ q)%Z else (2 ^ (q + 1))%Z in
  let d := (4 * c - 4 * x)%Z in
  if Z.even m then (- low <=? d)%Z && (d <=? up)%Z
  else (- low <? d)%Z && (d <? up)%Z.

(** The fewest significant digits [s], with the number [t] of zeros that
    follow them, that read back as [x]; of two candidates the nearer one,
    and on a tie the even one.  The search starts from [t] zeros and goes
    down. *)
Fixpoint shortestDigits (x : Z) (t : nat) : Z * nat :=
  let step := (10 ^ Z.of_nat t)%Z in
  let c1 := (x / step * step)%Z in
  let c2 := (c1 + step)%Z in
  let ok1 := (0 <? c1)%Z && readsBackAs x c1 in
  let ok2 := readsBackAs x c2 in
  let c :=
    if ok1 && ok2 then
      if (x - c1 <? c2 - x)%Z then c1
      else if (c2 - x <? x - c1)%Z then c2
      else if Z.even (c1 / step) then c1 else c2
    else if ok1 then c1 else c2 in
  if ok1 || ok2 then ((c / step)%Z, t)
  else match t with
       | O => (x, O)
       | S t' => shortestDigits x t'
       end.

Fixpoint zeros (t : nat) : string :=
  match t with
  | O => ""
  | S t' => "0" +:+ zeros t'
  end.

(** The digits [s] followed by [t] zeros when that makes at most 21
    digits, and in exponent notation otherwise. *)
Definition renderDigits (s : Z) (t : nat) : string :=
  let ds := pretty s in
  let n := (String.length ds + t)%nat in
  if (n <=? 21)%nat then ds +:+ zeros t
  else
    match ds with
    | String d rest =>
        String d (if decide (rest = "") then "" else "." +:+ rest) +:+
        "e+" +:+ pretty (Z.of_nat n - 1)%Z
    | EmptyString => ""
    end.

(** [`${n}`] for an integer-valued number [n]. *)
Definition numberToString (n : Z) : string :=
  if (n =? 0)%Z then "0"
  else
    let x := Z.abs n in
    let '(s, t) := shortestDigits x (String.length (pretty x)) in
    (if (n <? 0)%Z then "-" else "") +:+ renderDigits s t.

(** *** Property reads on a plain object used as a map *)

(** The names every plain object inherits from [Object.prototype]. *)
Definition Object_prototype : list string :=
  [ "constructor"; "hasOwnProperty"; "isPrototypeOf"; "propertyIsEnumerable";
    "toLocaleString"; "toString"; "valueOf"; "__proto__";
    "__defineGetter__"; "__defineSetter__"; "__lookupGetter__"; "__lookupSetter__" ].

Definition inheritedName (key : string) : bool :=
  bool_decide (key ∈ Object_prototype).

(** What [o[key]] gives: the value the object holds under the key itself,
    else what it inherits under that name, else [undefined]. *)
Inductive PropertyRead (V : Type) : Type :=
| OwnValue (v : V)
| InheritedValue
| UndefinedValue.
Arguments OwnValue {V} v.
Arguments InheritedValue {V}.
Arguments UndefinedValue {V}.

Definition getProperty {V : Type} (o : gmap string V) (key : string) : PropertyRead V :=
  match o !! key with
  | Some v => OwnValue v
  | None => if inheritedName key then InheritedValue else UndefinedValue
  end.

(** Truthiness of a read whose own values are objects: everything but
    [undefined] is truthy (what is inherited is a function or an object). *)
Definition truthy {V : Type} (r : PropertyRead V) : bool :=
  match r with
  | OwnValue _ | InheritedValue => true
  | UndefinedValue => false
  end.

End JS.
Import JS.

(** ** The viewer engine, as far as the facade uses it *)

Module Engine.

(** *** Documents and viewables *)

(** The [data] object of a viewable (the [Viewable] typedef of the source). *)
Record ViewableData : Type := {
  guid : string;
  name : string;
  role : string;
  type : string
}.

(** A viewable ("bubble node") with its ordered children. *)
Inductive Viewable : Type :=
| BubbleNode (id : Z) (data : ViewableData) (children : list Viewable).

Definition viewable_data (v : Viewable) : ViewableData :=
  match v with BubbleNode _ d _ => d end.

Record Document : Type := { getRoot : Viewable }.

(** Modelled from the spec: the engine's walk over the hierarchy of
    viewables of a document (absent from the repository), taken in
    document order, a node before its children. *)
Fixpoint traverse (v : Viewable) : list Viewable :=
  match v with
  | BubbleNode _ _ cs => v :: flat_map traverse cs
  end.

(** Modelled from the spec: the engine's lookup by guid (absent from the
    repository), an exact match against the guid of every node of the
    tree; [None] stands for the [null] of a failed lookup. *)
Definition findByGuid (root : Viewable) (g : string) : option Viewable :=
  List.find (fun v => bool_decide (guid (viewable_data v) = g)) (traverse root).

(** Modelled from the spec: the engine's search by type (absent from the
    repository), the ordered list of the viewables whose type is the
    requested one.  What the engine returns when no viewable has the type
    is not said; the list is then empty here. *)
Definition search (root : Viewable) (ty : string) : list Viewable :=
  List.filter (fun v => bool_decide (type (viewable_data v) = ty)) (traverse root).

(** What the engine's document loader reports for a URL. *)
Inductive LoadReply : Type :=
| LoadSuccess (doc : Document)
| LoadError (errorCode : Z) (errorMsg : string).

(** The documents the loader can reach. *)
Definition DocumentStore : Type := string -> LoadReply.

(** [Autodesk.Viewing.Document.load(url, onSuccess, onError)]: exactly one
    of the two callbacks is run. *)
Definition Document_load {R : Type} (store : DocumentStore) (url : string)
    (onSuccess : Document -> R) (onError : Z -> string -> R) : R :=
  match store url with
  | LoadSuccess doc => onSuccess doc
  | LoadError errorCode errorMsg => onError errorCode errorMsg
  end.

(** The requests the facade's [load] sends to the engine, in order. *)
Inductive EngineCall : Type :=
| CallDocumentLoad (url : string)
| CallLoadDocumentNode (doc : Document) (viewable : option Viewable).

(** *** Geometry values (THREE.js) *)

Record Vector3 : Type := { vx : Qc; vy : Qc; vz : Qc }.
Record Quaternion : Type := { qx : Qc; qy : Qc; qz : Qc; qw : Qc }.

(** [new THREE.Box3()] is the empty box. *)
Inductive Box3 : Type :=
| EmptyBox
| Box (min max : Vector3).

Record Matrix4 : Type := { elements : list Qc }.

(** [new THREE.Matrix4()] is the identity. *)
Definition Matrix4_new : Matrix4 :=
  {| elements := [1; 0; 0; 0;  0; 1; 0; 0;  0; 0; 1; 0;  0; 0; 0; 1]%Qc |}.

(** *** Ray casting *)

(** The [Intersection] typedef of the source (the face and the model
    reference are left out). *)
Record Intersection : Type := {
  dbId : Z;
  distance : Qc;
  faceIndex : Z;
  fragId : Z;
  intersectPoint : Vector3
}.

(** [a] is not farther from the camera than [b]. *)
Definition nearer (a b : Intersection) : Prop := (distance a <= distance b)%Qc.

#[global] Instance nearer_dec : RelDecision nearer.
Proof. intros a b. unfold nearer. apply _. Defined.

(** *** Overlay scenes *)

(** A mesh is told apart by its identity. *)
Abbreviation Mesh := positive.

(** [viewer.impl]: the overlay scenes by name, with the mesh set of each
    ([overlayScenes] is a plain object keyed by the names); the two
    geometric services of the engine the facade calls: the conversion of
    canvas pixels to viewport space, and the scene objects a ray through a
    viewport point meets (in no particular order) for the given
    transparency flag and id filters; and what the overlay manager does
    when it is asked to add to, or remove from, a scene it does not hold
    under the name given: it lets the request pass ([None]) or throws
    ([Some] of the message). *)
Record Viewer3DImpl : Type := {
  overlayScenes : gmap string (gset positive);
  clientToViewport : Qc -> Qc -> Vector3;
  rayHits : Vector3 -> bool -> option (list Z) -> option (list Z) -> list Intersection;
  sceneMissing : string -> option string
}.

Definition set_overlayScenes (f : gmap string (gset positive) -> gmap string (gset positive))
    (impl : Viewer3DImpl) : Viewer3DImpl :=
  {| overlayScenes := f (overlayScenes impl);
     clientToViewport := clientToViewport impl;
     rayHits := rayHits impl;
     sceneMissing := sceneMissing impl |}.

(** Modelled from the spec: the engine's ray-intersection query (absent
    from the repository); it leaves in the array it is handed the
    intersection records sorted ascending by distance, none when nothing
    is hit. *)
Definition castRayViewport (impl : Viewer3DImpl) (vpVec : Vector3) (ignoreTransparent : bool)
    (dbIds modelIds : option (list Z)) (intersections : list Intersection)
    : list Intersection :=
  merge_sort nearer (intersections ++ rayHits impl vpVec ignoreTransparent dbIds modelIds).

(** Modelled from the spec: the engine's overlay-scene manager (absent
    from the repository).  A scene is created empty under its name; a mesh
    is added to, or removed from, the mesh set of the named scene, and
    removing a mesh that is not in the set is silently ignored.  Of a name
    under which the manager holds no scene the spec says nothing: the
    outcome is then the engine's own ([sceneMissing]). *)
Definition createOverlayScene (name : string) (impl : Viewer3DImpl) : Viewer3DImpl :=
  set_overlayScenes (fun scenes => <[name := ∅]> scenes) impl.

Definition withoutScene (name : string) (impl : Viewer3DImpl) : Completion Viewer3DImpl :=
  match sceneMissing impl name with
  | Some message => Throw message
  | None => Normal impl
  end.

Definition addOverlay (name : string) (mesh : Mesh) (impl : Viewer3DImpl)
    : Completion Viewer3DImpl :=
  match overlayScenes impl !! name with
  | Some _ => Normal (set_overlayScenes (alter (fun meshes => meshes ∪ {[mesh]}) name) impl)
  | None => withoutScene name impl
  end.

Definition removeOverlay (name : string) (mesh : Mesh) (impl : Viewer3DImpl)
    : Completion Viewer3DImpl :=
  match overlayScenes impl !! name with
  | Some _ => Normal (set_overlayScenes (alter (fun meshes => meshes ∖ {[mesh]}) name) impl)
  | None => withoutScene name impl
  end.

(** The meshes of the overlay called [name]; none when there is no such
    overlay. *)
Definition overlayMeshes (impl : Viewer3DImpl) (name : string) : gset positive :=
  default ∅ (overlayScenes impl !! name).

(** *** The object tree *)

(** The object tree as the facade sees it: the root id, the child count
    of a node, and the ids that an enumeration of the nodes, or of the
    fragments, under a parent reports, in the order it reports them
    (the flag is the [recursive] argument). *)
Record InstanceTree : Type := {
  getRootId : Z;
  getChildCount : Z -> Z;
  nodesUnder : Z -> bool -> list Z;
  fragmentsUnder : Z -> bool -> list Z
}.

(** [tree.enumNodeChildren(parent, callback, recursive)]: the callback
    runs once per id, in order; its effect is a change of the caller's
    state [S]. *)
Definition enumNodeChildren {S : Type} (tree : InstanceTree) (parent : Z)
    (callback : Z -> S -> S) (recursive : bool) (s : S) : S :=
  foldl (fun s id => callback id s) s (nodesUnder tree parent recursive).

Definition enumNodeFragments {S : Type} (tree : InstanceTree) (parent : Z)
    (callback : Z -> S -> S) (recursive : bool) (s : S) : S :=
  foldl (fun s id => callback id s) s (fragmentsUnder tree parent recursive).

(** *** Fragments *)

(** The auxiliary transform of a fragment. *)
Record AnimTransform : Type := {
  scale : Vector3;
  rotation : Quaternion;
  position : Vector3
}.

Definition AnimTransform_identity : AnimTransform :=
  {| scale := {| vx := 1; vy := 1; vz := 1 |};
     rotation := {| qx := 0; qy := 0; qz := 0; qw := 1 |};
     position := {| vx := 0; vy := 0; vz := 0 |} |}%Qc.

(** The fragment list of a model: per fragment id the transform as loaded
    and the auxiliary transform set so far, and the engine's geometry
    (world bounds and composition of the two transforms). *)
Record FragmentList : Type := {
  originalWorldMatrix : Z -> Matrix4;
  animxforms : gmap Z AnimTransform;
  composeWorldMatrix : Matrix4 -> AnimTransform -> Matrix4;
  worldBoundsOf : Z -> AnimTransform -> Box3
}.

Definition animTransformOf (frags : FragmentList) (fragId : Z) : AnimTransform :=
  default AnimTransform_identity (animxforms frags !! fragId).

(** Modelled from the spec: the engine's world-bounds query (absent from
    the repository) writes the world-space bounding box of the fragment
    over the caller's box [dst].  The spec has it succeed for every valid
    fragment id and says nothing of other ids; here it answers for any id. *)
Definition getWorldBounds (frags : FragmentList) (fragId : Z) (dst : Box3) : Box3 :=
  worldBoundsOf frags fragId (animTransformOf frags fragId).

(** Modelled from the spec: the engine's query for the transform as
    originally loaded (absent from the repository) writes it over the
    caller's matrix [dst].  The spec has it succeed for every valid
    fragment id and says nothing of other ids; here it answers for any id. *)
Definition getOriginalWorldMatrix (frags : FragmentList) (fragId : Z) (dst : Matrix4) : Matrix4 :=
  originalWorldMatrix frags fragId.

(** Modelled from the spec: the final transform (absent from the
    repository) is the composition of the original and the auxiliary
    transform; as the other queries, it answers for any id. *)
Definition getWorldMatrix (frags : FragmentList) (fragId : Z) (dst : Matrix4) : Matrix4 :=
  composeWorldMatrix frags (originalWorldMatrix frags fragId) (animTransformOf frags fragId).

(** Modelled from the spec: reading the auxiliary transform (absent from
    the repository) populates the three caller-provided outputs with the
    current auxiliary transform of the fragment. *)
Definition getAnimTransform (frags : FragmentList) (fragId : Z)
    (scale : Vector3) (rotation : Quaternion) (position : Vector3)
    : Vector3 * Quaternion * Vector3 :=
  let current := animTransformOf frags fragId in
  (Engine.scale current, Engine.rotation current, Engine.position current).

(** Modelled from the spec: updating the auxiliary transform (absent from
    the repository) is tri-state per component: a component that is
    supplied replaces the current one, a component that is omitted
    ([null] or [undefined], here [None]) is left as it is. *)
Definition updateAnimTransform (frags : FragmentList) (fragId : Z)
    (scale : option Vector3) (rotation : option Quaternion) (position : option Vector3)
    : FragmentList :=
  let current := animTransformOf frags fragId in
  let updated :=
    {| Engine.scale := default (Engine.scale current) scale;
       Engine.rotation := default (Engine.rotation current) rotation;
       Engine.position := default (Engine.position current) position |} in
  {| originalWorldMatrix := originalWorldMatrix frags;
     animxforms := <[fragId := updated]> (animxforms frags);
     composeWorldMatrix := composeWorldMatrix frags;
     worldBoundsOf := worldBoundsOf frags |}.

(** *** The viewer *)

(** Modelled from the spec: a loaded model (absent from the repository)
    hands out its fragment list ([getFragmentList()], which cannot fail)
    and, once built, its object tree (before that, the error the engine
    reports to who asks for it). *)
Record Model : Type := {
  getFragmentList : FragmentList;
  objectTree : string + InstanceTree
}.

(** The viewer: the model when one is loaded ([viewer.model] is falsy
    otherwise), the implementation object, and the error the engine
    reports for want of a model. *)
Record Viewer3D : Type := {
  model : option Model;
  impl : Viewer3DImpl;
  noModelError : string
}.

(** [viewer.getObjectTree(onSuccess, onError)]: exactly one of the two
    callbacks is run. *)
Definition getObjectTree {R : Type} (viewer : Viewer3D)
    (onSuccess : InstanceTree -> R) (onError : string -> R) : R :=
  match model viewer with
  | Some m =>
      match objectTree m with
      | inr tree => onSuccess tree
      | inl err => onError err
      end
  | None => onError (noModelError viewer)
  end.

End Engine.
Import Engine.

Module Utilities.

(** The [viewableId] argument of [load]: a GUID (a string) or an index
    (a number, here integer-valued). *)
Inductive ViewableId : Type :=
| Guid (g : string)
| Index (n : Z).

(** The outcome of one [load]: how the returned promise was settled, and
    what the engine was asked to do. *)
Record LoadRun : Type := {
  settled : Promise (option Viewable);
  calls : list EngineCall
}.

(** The success callback of [load].  In the numeric branch the viewable is
    read with [viewables[viewableId]] after the single test
    [viewableId < viewables.length]. *)
Definition onDocumentLoadSuccess (viewableId : ViewableId) (doc : Document) : LoadRun :=
  match viewableId with
  | Guid g =>
      match findByGuid (getRoot doc) g with
      | Some viewable =>
          {| settled := Resolved (Some viewable);
             calls := [CallLoadDocumentNode doc (Some viewable)] |}
      | None =>
          {| settled := Rejected ("Viewable " +:+ g +:+ " not found.");
             calls := [] |}
      end
  | Index n =>
      let viewables := search (getRoot doc) "geometry" in
      if (n <? Z.of_nat (length viewables))%Z then
        let viewable := at_index viewables n in
        {| settled := Resolved viewable;
           calls := [CallLoadDocumentNode doc viewable] |}
      else
        {| settled := Rejected ("Viewable " +:+ numberToString n +:+ " not found.");
           calls := [] |}
  end.

Definition onDocumentLoadError (errorCode : Z) (errorMsg : string) : LoadRun :=
  {| settled := Rejected ("Document loading error: " +:+ errorMsg +:+
                            " (" +:+ numberToString errorCode +:+ ")");
     calls := [] |}.

(** [load(documentUrn, viewableId = 0)]. *)
Definition load (store : DocumentStore) (documentUrn : string)
    (viewableId : option ViewableId) : LoadRun :=
  let viewableId := default (Index 0) viewableId in
  let url := "urn:" +:+ documentUrn in
  let run := Document_load store url (onDocumentLoadSuccess viewableId) onDocumentLoadError in
  {| settled := settled run; calls := CallDocumentLoad url :: calls run |}.

(** The object the constructor builds.  [this.impl] is the very object
    [viewer.impl], so it is read through the viewer, and a change made
    through one is seen through the other. *)
Record Utilities : Type := { viewer : Viewer3D }.

Definition impl (this : Utilities) : Viewer3DImpl := Engine.impl (viewer this).

Definition set_impl (f : Viewer3DImpl -> Viewer3DImpl) (this : Utilities) : Utilities :=
  {| viewer := {| model := model (viewer this);
                  Engine.impl := f (impl this);
                  noModelError := noModelError (viewer this) |} |}.

Definition set_fragmentList (frags : FragmentList) (m : Model) (this : Utilities) : Utilities :=
  {| viewer := {| model := Some {| getFragmentList := frags; objectTree := objectTree m |};
                  Engine.impl := impl this;
                  noModelError := noModelError (viewer this) |} |}.

(** [rayCast(x, y)]. *)
Definition rayCast (this : Utilities) (x y : Qc) : list Intersection :=
  let intersections := [] in
  let intersections :=
    castRayViewport (impl this) (clientToViewport (impl this) x y) false None None
      intersections in
  intersections.

(** [addCustomMesh(mesh, overlay = 'UtilitiesOverlay')].  The guard is a
    truthiness test on the property read [this.impl.overlayScenes[overlay]];
    an error of the engine call passes through to the caller. *)
Definition addCustomMesh (this : Utilities) (mesh : Mesh) (overlay : option string)
    : Completion Utilities :=
  let overlay := default "UtilitiesOverlay" overlay in
  let this :=
    if negb (truthy (getProperty (overlayScenes (impl this)) overlay))
    then set_impl (createOverlayScene overlay) this
    else this in
  match addOverlay overlay mesh (impl this) with
  | Normal impl' => Normal (set_impl (fun _ => impl') this)
  | Throw message => Throw message
  end.

(** [removeCustomMesh(mesh, overlay = 'UtilitiesOverlay')], with the same
    guard. *)
Definition removeCustomMesh (this : Utilities) (mesh : Mesh) (overlay : option string)
    : Completion Utilities :=
  let overlay := default "UtilitiesOverlay" overlay in
  let this :=
    if negb (truthy (getProperty (overlayScenes (impl this)) overlay))
    then set_impl (createOverlayScene overlay) this
    else this in
  match removeOverlay overlay mesh (impl this) with
  | Normal impl' => Normal (set_impl (fun _ => impl') this)
  | Throw message => Throw message
  end.

(** [enumerateNodes(callback, parent = undefined)]; the effect of the
    caller's callback is a change of the caller's state [S]. *)
Definition enumerateNodes {S : Type} (this : Utilities) (callback : Z -> S -> S)
    (parent : option Z) (s : S) : Completion S :=
  let onSuccess tree :=
    let parent := default (getRootId tree) parent in
    Normal (enumNodeChildren tree parent callback true s) in
  let onError err := Throw err in
  getObjectTree (viewer this) onSuccess onError.

(** [listNodes(parentId = undefined)]. *)
Definition listNodes (this : Utilities) (parentId : option Z) : Promise (list Z) :=
  let onSuccess tree :=
    let parentId := default (getRootId tree) parentId in
    let ids := [] in
    let ids := enumNodeChildren tree parentId (fun id ids => push id ids) true ids in
    Resolved ids in
  let onError err := Rejected err in
  getObjectTree (viewer this) onSuccess onError.

(** [enumerateLeafNodes(callback, parent = undefined)]. *)
Definition enumerateLeafNodes {S : Type} (this : Utilities) (callback : Z -> S -> S)
    (parent : option Z) (s : S) : Completion S :=
  let onSuccess tree :=
    let onNode id s := if (getChildCount tree id =? 0)%Z then callback id s else s in
    let parent := default (getRootId tree) parent in
    Normal (enumNodeChildren tree parent onNode true s) in
  let onError err := Throw err in
  getObjectTree (viewer this) onSuccess onError.

(** [listLeafNodes(parentId = undefined)]. *)
Definition listLeafNodes (this : Utilities) (parentId : option Z) : Promise (list Z) :=
  let ids := [] in
  let onSuccess tree :=
    let parentId := default (getRootId tree) parentId in
    let ids :=
      enumNodeChildren tree parentId
        (fun id ids => if (getChildCount tree id =? 0)%Z then push id ids else ids)
        true ids in
    Resolved ids in
  let onError err := Rejected err in
  getObjectTree (viewer this) onSuccess onError.

(** [enumerateFragments(callback, parent = undefined)]. *)
Definition enumerateFragments {S : Type} (this : Utilities) (callback : Z -> S -> S)
    (parent : option Z) (s : S) : Completion S :=
  let onSuccess tree :=
    let parent := default (getRootId tree) parent in
    Normal (enumNodeFragments tree parent callback true s) in
  let onError err := Throw err in
  getObjectTree (viewer this) onSuccess onError.

(** [listFragments(parentId = undefined)]. *)
Definition listFragments (this : Utilities) (parentId : option Z) : Promise (list Z) :=
  let onSuccess tree :=
    let parentId := default (getRootId tree) parentId in
    let ids := [] in
    let ids := enumNodeFragments tree parentId (fun id ids => push id ids) true ids in
    Resolved ids in
  let onError err := Rejected err in
  getObjectTree (viewer this) onSuccess onError.

(** The message of the error the fragment methods throw without a model. *)
Definition fragmentsNotAvailable : string :=
  "Fragments not yet available. Wait for Autodesk.Viewing.FRAGMENTS_LOADED_EVENT event.".

(** [getFragmentBounds(fragId)]. *)
Definition getFragmentBounds (this : Utilities) (fragId : Z) : Completion Box3 :=
  match model (viewer this) with
  | None => Throw fragmentsNotAvailable
  | Some m =>
      let frags := getFragmentList m in
      let bounds := EmptyBox in
      let bounds := getWorldBounds frags fragId bounds in
      Normal bounds
  end.

(** [getFragmentOrigTransform(fragId)]. *)
Definition getFragmentOrigTransform (this : Utilities) (fragId : Z) : Completion Matrix4 :=
  match model (viewer this) with
  | None => Throw fragmentsNotAvailable
  | Some m =>
      let frags := getFragmentList m in
      let transform := Matrix4_new in
      let transform := getOriginalWorldMatrix frags fragId transform in
      Normal transform
  end.

(** [getFragmentAuxTransform(fragId, scale, rotation, position)]; the
    result is the three out-parameters as the call leaves them. *)
Definition getFragmentAuxTransform (this : Utilities) (fragId : Z)
    (scale : Vector3) (rotation : Quaternion) (position : Vector3)
    : Completion (Vector3 * Quaternion * Vector3) :=
  match model (viewer this) with
  | None => Throw fragmentsNotAvailable
  | Some m =>
      let frags := getFragmentList m in
      Normal (getAnimTransform frags fragId scale rotation position)
  end.

(** [setFragmentAuxTransform(fragId, scale, rotation, position)]; the
    result is the facade after the update of the fragment list. *)
Definition setFragmentAuxTransform (this : Utilities) (fragId : Z)
    (scale : option Vector3) (rotation : option Quaternion) (position : option Vector3)
    : Completion Utilities :=
  match model (viewer this) with
  | None => Throw fragmentsNotAvailable
  | Some m =>
      let frags := getFragmentList m in
      Normal (set_fragmentList (updateAnimTransform frags fragId scale rotation position) m this)
  end.

(** [getFragmentTransform(fragId)]. *)
Definition getFragmentTransform (this : Utilities) (fragId : Z) : Completion Matrix4 :=
  match model (viewer this) with
  | None => Throw fragmentsNotAvailable
  | Some m =>
      let frags := getFragmentList m in
      let transform := Matrix4_new in
      let transform := getWorldMatrix frags fragId transform in
      Normal transform
  end.

End Utilities.
Import Utilities.


(** ** Vocabulary of the statements *)

(** The call throws an error whose message contains [phrase]. *)
Definition throwsContaining {A : Type} (phrase : string) (c : Completion A) : Prop :=
  exists msg, c = Throw msg /\ includes phrase msg = true.

(** The call returns normally. *)
Definition returns {A : Type} (c : Completion A) : Prop :=
  exists a, c = Normal a.

(** The promise is rejected. *)
Definition rejected {A : Type} (p : Promise A) : Prop :=
  exists reason, p = Rejected reason.

(** The URLs handed to the engine's document loader, in order. *)
Definition documentLoads (cs : list EngineCall) : list string :=
  omap (fun c => match c with CallDocumentLoad url => Some url | _ => None end) cs.

(** The tree the engine hands to a success callback, when it has one. *)
Definition availableTree (v : Viewer3D) : option InstanceTree :=
  getObjectTree v Some (fun _ => None).

(** The ids a push-form enumeration reports to its callback, in the order
    of the calls: the log of a callback that records its argument. *)
Definition reported (enumerate : (Z -> list Z -> list Z) -> list Z -> Completion (list Z))
    : Completion (list Z) :=
  enumerate (fun id log => push id log) [].

(** A pull form and a push form end alike: the one resolves with what the
    other returns, or the one rejects with what the other throws. *)
Definition settlesAs {A : Type} (pull : Promise A) (pushed : Completion A) : Prop :=
  match pull, pushed with
  | Resolved a, Normal b => a = b
  | Rejected err, Throw err' => err = err'
  | _, _ => False
  end.

(** The push form a pull form stands for: the ids it resolved with, fed
    one by one to the callback; its rejection, thrown. *)
Definition replay {S : Type} (callback : Z -> S -> S) (s : S) (pull : Promise (list Z))
    : Completion S :=
  match pull with
  | Resolved ids => Normal (foldl (fun s id => callback id s) s ids)
  | Rejected err => Throw err
  end.

(** The facade once the overlay called [name] exists: as it is when it
    holds a scene under that name, with an empty scene created otherwise. *)
Definition withOverlay (name : string) (this : Utilities) : Utilities :=
  match overlayScenes (impl this) !! name with
  | Some _ => this
  | None => set_impl (createOverlayScene name) this
  end.

(** ** Sample data *)

Module Sample.

Definition data (g t : string) : ViewableData :=
  {| guid := g; name := g; role := "3d"; type := t |}.

(** A document with a folder, two geometry viewables and a sheet. *)
Definition house : Document :=
  {| getRoot :=
       BubbleNode 0 (data "root" "design")
         [ BubbleNode 1 (data "g-folder" "folder")
             [ BubbleNode 2 (data "g-3d" "geometry") [] ];
           BubbleNode 3 (data "g-sheet" "sheet") [];
           BubbleNode 4 (data "g-plan" "geometry") [] ] |}.

(** One document under one urn; every other URL fails with the code 4. *)
Definition store : DocumentStore := fun url =>
  if decide (url = "urn:dXJuOmhvdXNl") then LoadSuccess house
  else LoadError 4 "resource not found".

Definition hit (id : Z) (d : Z) (v : Vector3) : Intersection :=
  {| dbId := id; distance := Qc_of_Z d; faceIndex := 0; fragId := id; intersectPoint := v |}.

(** An engine that sees three objects behind every pixel right of the
    left border, and nothing on the border itself. *)
Definition engine (scenes : gmap string (gset positive)) : Viewer3DImpl :=
  {| overlayScenes := scenes;
     clientToViewport := fun x y => {| vx := x; vy := y; vz := 1%Qc |};
     rayHits := fun v _ _ _ =>
       if decide (vx v = 0%Qc) then [] else [hit 7 5 v; hit 8 2 v; hit 9 3 v];
     sceneMissing := fun _ => Some "Cannot read properties of undefined" |}.

(** The tree of the specification's scenario: root 0 with children 1 and
    2, node 1 with children 3 and 4. *)
Definition tree : InstanceTree :=
  {| getRootId := 0;
     getChildCount := fun id =>
       if decide (id = 0) then 2 else if decide (id = 1) then 2 else 0;
     nodesUnder := fun parent _ =>
       if decide (parent = 0) then [1; 2; 3; 4]
       else if decide (parent = 1) then [3; 4] else [];
     fragmentsUnder := fun parent _ =>
       if decide (parent = 0) then [12; 13; 14]
       else if decide (parent = 1) then [13; 14] else [] |}%Z.

Definition fragments : FragmentList :=
  {| originalWorldMatrix := fun _ => Matrix4_new;
     animxforms :=
       {[ 1%Z := {| scale := {| vx := Qc_of_Z 2; vy := Qc_of_Z 3; vz := Qc_of_Z 4 |};
                    rotation := {| qx := 1; qy := 0; qz := 0; qw := 0 |};
                    position := {| vx := 0; vy := 0; vz := 0 |} |}%Qc ]};
     composeWorldMatrix := fun m _ => m;
     worldBoundsOf := fun _ a => Box (position a) (position a) |}.

(** A facade before any model is loaded, and one with a model. *)
Definition fresh : Utilities :=
  {| viewer := {| model := None; Engine.impl := engine ∅;
                  noModelError := "viewer does not have a model" |} |}.

Definition loaded : Utilities :=
  {| viewer := {| model := Some {| getFragmentList := fragments; objectTree := inr tree |};
                  Engine.impl := engine {[ "markers" := {[ 5%positive ]} ]};
                  noModelError := "viewer does not have a model" |} |}.

End Sample.

(** ** Strings *)

Lemma startsWith_spec (p s : string) :
  startsWith p s = true <-> exists t, s = p +:+ t.
Proof.
  revert s. induction p as [|a p IH]; intros s; simpl.
  - split; [intros _; by exists s | done].
  - destruct s as [|b s].
    + split; [done | intros [t Ht]; discriminate].
    + case_decide as Hab.
      * subst b. rewrite IH. split; intros [t Ht]; exists t.
        -- by rewrite Ht.
        -- by injection Ht.
      * split; [done | intros [t Ht]; injection Ht; congruence].
Qed.

Lemma includes_spec (p s : string) :
  includes p s = true <-> exists pre post, s = pre +:+ p +:+ post.
Proof.
  induction s as [|b s IH]; simpl; rewrite orb_true_iff, startsWith_spec.
  - split.
    + intros [[t Ht]|?]; [|done]. by exists "", t.
    + intros [pre [post H]]. left. destruct pre; [by exists post | discriminate].
  - rewrite IH. split.
    + intros [[t Ht]|[pre [post H]]].
      * by exists "", t.
      * exists (String b pre), post. simpl. by rewrite H.
    + intros [pre [post H]]. destruct pre as [|c pre].
      * left. by exists post.
      * right. exists pre, post. simpl in H. by injection H.
Qed.

(** ** [load] *)

Lemma at_index_negative {A : Type} (arr : list A) (i : Z) :
  (i < 0)%Z -> at_index arr i = None.
Proof. intros Hi. unfold at_index. by rewrite (proj2 (Z.ltb_lt _ _) Hi). Qed.

Lemma at_index_in_range {A : Type} (arr : list A) (i : Z) :
  (0 <= i < Z.of_nat (length arr))%Z ->
  exists a, at_index arr i = Some a /\ arr !! Z.to_nat i = Some a.
Proof.
  intros [Hlo Hhi]. unfold at_index.
  rewrite (proj2 (Z.ltb_ge _ _) Hlo).
  destruct (lookup_lt_is_Some_2 arr (Z.to_nat i)) as [a Ha]; [lia | eauto].
Qed.

Lemma findByGuid_Some (root : Viewable) (g : string) (v : Viewable) :
  findByGuid root g = Some v -> In v (traverse root) /\ guid (viewable_data v) = g.
Proof.
  unfold findByGuid. intros H. apply find_some in H as [Hin Hg].
  split; [done | by apply bool_decide_eq_true in Hg].
Qed.

Lemma findByGuid_None (root : Viewable) (g : string) :
  findByGuid root g = None <->
  forall v, In v (traverse root) -> guid (viewable_data v) <> g.
Proof.
  unfold findByGuid. split.
  - intros H v Hin. apply (find_none _ _ H) in Hin. by apply bool_decide_eq_false in Hin.
  - intros H. destruct (find _ _) as [v|] eqn:Hfind; [|done].
    apply find_some in Hfind as [Hin Hg]. apply bool_decide_eq_true in Hg.
    by destruct (H v Hin).
Qed.

Section Load.

Variable store : DocumentStore.
Variable documentUrn : string.

(** A failure of the loader rejects with the engine's message and code. *)
Lemma load_document_error (viewableId : option ViewableId) errorCode errorMsg :
  store ("urn:" +:+ documentUrn) = LoadError errorCode errorMsg ->
  settled (load store documentUrn viewableId) =
  Rejected ("Document loading error: " +:+ errorMsg +:+
              " (" +:+ numberToString errorCode +:+ ")").
Proof. intros H. unfold load, Document_load. by rewrite H. Qed.

Variable doc : Document.
Hypothesis loaded : store ("urn:" +:+ documentUrn) = LoadSuccess doc.

(** A guid of the tree resolves with the first viewable that carries it. *)
Lemma load_guid_found (g : string) (viewable : Viewable) :
  findByGuid (getRoot doc) g = Some viewable ->
  load store documentUrn (Some (Guid g)) =
  {| settled := Resolved (Some viewable);
     calls := [CallDocumentLoad ("urn:" +:+ documentUrn);
               CallLoadDocumentNode doc (Some viewable)] |}.
Proof.
  intros H. unfold load, Document_load. rewrite loaded. simpl. by rewrite H.
Qed.

(** A guid that is not in the tree rejects, and the message names it. *)
Lemma load_guid_missing (g : string) :
  findByGuid (getRoot doc) g = None ->
  load store documentUrn (Some (Guid g)) =
  {| settled := Rejected ("Viewable " +:+ g +:+ " not found.");
     calls := [CallDocumentLoad ("urn:" +:+ documentUrn)] |}.
Proof.
  intros H. unfold load, Document_load. rewrite loaded. simpl. by rewrite H.
Qed.

(** An index within the geometry viewables resolves with the viewable at
    that place of the filtered list. *)
Lemma load_index_in_range (n : Z) :
  (0 <= n < Z.of_nat (length (search (getRoot doc) "geometry")))%Z ->
  exists viewable,
    search (getRoot doc) "geometry" !! Z.to_nat n = Some viewable /\
    load store documentUrn (Some (Index n)) =
    {| settled := Resolved (Some viewable);
       calls := [CallDocumentLoad ("urn:" +:+ documentUrn);
                 CallLoadDocumentNode doc (Some viewable)] |}.
Proof.
  intros Hn. destruct (at_index_in_range _ _ Hn) as [viewable [Hat Hlook]].
  exists viewable. split; [done|].
  unfold load, Document_load. rewrite loaded. simpl.
  rewrite (proj2 (Z.ltb_lt _ _) (proj2 Hn)). by rewrite Hat.
Qed.

(** An index at or past the count of geometry viewables rejects, and the
    message names it. *)
Lemma load_index_beyond (n : Z) :
  (Z.of_nat (length (search (getRoot doc) "geometry")) <= n)%Z ->
  load store documentUrn (Some (Index n)) =
  {| settled := Rejected ("Viewable " +:+ numberToString n +:+ " not found.");
     calls := [CallDocumentLoad ("urn:" +:+ documentUrn)] |}.
Proof.
  intros Hn. unfold load, Document_load. rewrite loaded. simpl.
  by rewrite (proj2 (Z.ltb_ge _ _) Hn).
Qed.

(** A negative index passes the one test the method makes, reads
    [undefined] from the array, hands it to the engine and resolves with it. *)
Lemma load_index_negative (n : Z) :
  (n < 0)%Z ->
  load store documentUrn (Some (Index n)) =
  {| settled := Resolved None;
     calls := [CallDocumentLoad ("urn:" +:+ documentUrn);
               CallLoadDocumentNode doc None] |}.
Proof.
  intros Hn. unfold load, Document_load. rewrite loaded. simpl.
  assert ((n <? Z.of_nat (length (search (getRoot doc) "geometry")))%Z = true) as ->
    by (apply Z.ltb_lt; lia).
  by rewrite at_index_negative.
Qed.

(** When the document loads, the promise is rejected exactly for a guid
    that is not in the tree and for an index at or past the count. *)
Lemma load_rejected_iff (viewableId : option ViewableId) :
  rejected (settled (load store documentUrn viewableId)) <->
  match default (Index 0) viewableId with
  | Guid g => findByGuid (getRoot doc) g = None
  | Index n => (Z.of_nat (length (search (getRoot doc) "geometry")) <= n)%Z
  end.
Proof.
  unfold rejected, load, Document_load. rewrite loaded. simpl.
  destruct (default (Index 0) viewableId) as [g|n]; simpl.
  - destruct (findByGuid (getRoot doc) g); simpl.
    + split; [intros [r Hr]; discriminate | discriminate].
    + split; [done | eauto].
  - destruct (Z.ltb_spec n (Z.of_nat (length (search (getRoot doc) "geometry")))); simpl.
    + split; [intros [r Hr]; discriminate | lia].
    + split; [done | eauto].
Qed.

End Load.

Example load_default_is_first_geometry :
  settled (load Sample.store "dXJuOmhvdXNl" None) =
  Resolved (Some (BubbleNode 2 (Sample.data "g-3d" "geometry") [])).
Proof. reflexivity. Qed.

Example load_second_geometry :
  settled (load Sample.store "dXJuOmhvdXNl" (Some (Index 1))) =
  Resolved (Some (BubbleNode 4 (Sample.data "g-plan" "geometry") [])).
Proof. reflexivity. Qed.

Example load_by_guid :
  settled (load Sample.store "dXJuOmhvdXNl" (Some (Guid "g-sheet"))) =
  Resolved (Some (BubbleNode 3 (Sample.data "g-sheet" "sheet") [])).
Proof. reflexivity. Qed.

Example load_index_past_the_end :
  settled (load Sample.store "dXJuOmhvdXNl" (Some (Index 2))) =
  Rejected "Viewable 2 not found.".
Proof. reflexivity. Qed.

Example load_unknown_guid :
  settled (load Sample.store "dXJuOmhvdXNl" (Some (Guid "nope"))) =
  Rejected "Viewable nope not found.".
Proof. reflexivity. Qed.

Example load_unknown_document :
  settled (load Sample.store "b3RoZXI" None) =
  Rejected "Document loading error: resource not found (4)".
Proof. reflexivity. Qed.

(** C1, at a failing input.  The sample document has two geometry viewables;
    with the index [-1] the promise of [load] is not rejected: the engine is
    asked to display [undefined], and the promise resolves with [undefined]. *)
Theorem load_negative_index_resolves_undefined :
  let run := load Sample.store "dXJuOmhvdXNl" (Some (Index (-1))) in
  length (search (getRoot Sample.house) "geometry") = 2%nat /\
  settled run = Resolved None /\
  calls run = [CallDocumentLoad "urn:dXJuOmhvdXNl"; CallLoadDocumentNode Sample.house None].
Proof.
  cbv zeta. split; [reflexivity|].
  rewrite (load_index_negative Sample.store "dXJuOmhvdXNl" Sample.house eq_refl (-1)) by lia.
  done.
Qed.

(** C2, at a failing input.  The loader reports no failure and the index
    [-2] designates no viewable among the geometry viewables, yet the
    promise of [load] is resolved (with [undefined]), not rejected. *)
Theorem load_selector_without_viewable_not_rejected :
  let viewables := search (getRoot Sample.house) "geometry" in
  let run := load Sample.store "dXJuOmhvdXNl" (Some (Index (-2))) in
  Sample.store "urn:dXJuOmhvdXNl" = LoadSuccess Sample.house /\
  at_index viewables (-2) = None /\
  settled run = Resolved None.
Proof.
  cbv zeta. split; [reflexivity|]. split; [reflexivity|].
  by rewrite (load_index_negative Sample.store "dXJuOmhvdXNl" Sample.house eq_refl (-2)) by lia.
Qed.

Lemma documentLoads_onDocumentLoadSuccess (viewableId : ViewableId) (doc : Document) :
  documentLoads (calls (onDocumentLoadSuccess viewableId doc)) = [].
Proof.
  unfold onDocumentLoadSuccess. destruct viewableId as [g|n].
  - by destruct (findByGuid _ _).
  - by destruct (_ <? _)%Z.
Qed.

Lemma documentLoads_load (store : DocumentStore) (documentUrn : string)
    (viewableId : option ViewableId) :
  documentLoads (calls (load store documentUrn viewableId)) = ["urn:" +:+ documentUrn].
Proof.
  unfold load, Document_load. cbn [calls documentLoads omap list_omap].
  fold (documentLoads). destruct (store _) as [doc|code msg].
  - by rewrite documentLoads_onDocumentLoadSuccess.
  - done.
Qed.

(** C10.  Whatever the store, the urn and the selector: [load] consults
    the document loader under the name ["urn:"] followed by the urn as
    given, once, and it is the loader's reply under that name that decides
    the outcome: on success the success callback runs on the document
    found there, on failure the promise is rejected with the error found
    there.  Nothing else of the store matters.  So a urn that already
    starts with ["urn:"] is looked up with the prefix twice. *)
Theorem load_prepends_urn_scheme (store : DocumentStore) (documentUrn : string)
    (viewableId : option ViewableId) :
  let selector := default (Index 0) viewableId in
  let outcome := fun (url : string) =>
    match store url with
    | LoadSuccess doc =>
        {| settled := settled (onDocumentLoadSuccess selector doc);
           calls := CallDocumentLoad url :: calls (onDocumentLoadSuccess selector doc) |}
    | LoadError errorCode errorMsg =>
        {| settled := settled (onDocumentLoadError errorCode errorMsg);
           calls := [CallDocumentLoad url] |}
    end in
  load store documentUrn viewableId = outcome ("urn:" +:+ documentUrn) /\
  documentLoads (calls (load store documentUrn viewableId)) = ["urn:" +:+ documentUrn] /\
  (forall store' : DocumentStore,
     store' ("urn:" +:+ documentUrn) = store ("urn:" +:+ documentUrn) ->
     load store' documentUrn viewableId = load store documentUrn viewableId) /\
  load store ("urn:" +:+ documentUrn) viewableId = outcome ("urn:urn:" +:+ documentUrn).
Proof.
  cbv zeta.
  assert (forall urn,
            load store urn viewableId =
            match store ("urn:" +:+ urn) with
            | LoadSuccess doc =>
                {| settled := settled (onDocumentLoadSuccess (default (Index 0) viewableId) doc);
                   calls := CallDocumentLoad ("urn:" +:+ urn) ::
                            calls (onDocumentLoadSuccess (default (Index 0) viewableId) doc) |}
            | LoadError errorCode errorMsg =>
                {| settled := settled (onDocumentLoadError errorCode errorMsg);
                   calls := [CallDocumentLoad ("urn:" +:+ urn)] |}
            end) as Hload.
  { intros urn. unfold load, Document_load. by destruct (store ("urn:" +:+ urn)). }
  split; [apply Hload|]. split; [apply documentLoads_load|]. split.
  - intros store' Hsame. unfold load, Document_load. by rewrite Hsame.
  - apply (Hload ("urn:" +:+ documentUrn)).
Qed.

(** The sample store holds its document under ["urn:dXJuOmhvdXNl"]: the
    bare urn loads it, the urn with the prefix does not. *)
Example load_prefixed_urn_fails :
  settled (load Sample.store "urn:dXJuOmhvdXNl" None) =
  Rejected "Document loading error: resource not found (4)".
Proof. reflexivity. Qed.

(** Numbers in messages are printed as a template literal prints them. *)
Example numberToString_small : numberToString (-2) = "-2".
Proof. reflexivity. Qed.

Example numberToString_rounded : numberToString (2 ^ 60) = "1152921504606847000".
Proof. reflexivity. Qed.

Example numberToString_exponent : numberToString (10 ^ 21) = "1e+21".
Proof. reflexivity. Qed.

Example load_huge_index :
  settled (load Sample.store "dXJuOmhvdXNl" (Some (Index (10 ^ 21)))) =
  Rejected "Viewable 1e+21 not found.".
Proof. reflexivity. Qed.

(** ** Fragment transforms *)

Lemma includes_fragmentsNotAvailable :
  includes "Fragments not yet available" fragmentsNotAvailable = true.
Proof. reflexivity. Qed.

(** The shape the five fragment methods share: throw without a model,
    return what the engine gives otherwise. *)
Lemma model_guard_throws {A : Type} (o : option Model) (f : Model -> A) :
  throwsContaining "Fragments not yet available"
    (match o with None => Throw fragmentsNotAvailable | Some m => Normal (f m) end)
  <-> o = None.
Proof.
  destruct o as [m|]; split; try done.
  - intros [msg [H _]]. discriminate.
  - intros _. exists fragmentsNotAvailable. split; [done | apply includes_fragmentsNotAvailable].
Qed.

Lemma model_guard_returns {A : Type} (o : option Model) (f : Model -> A) :
  returns (match o with None => Throw fragmentsNotAvailable | Some m => Normal (f m) end)
  <-> is_Some o.
Proof.
  destruct o as [m|]; split.
  - eauto.
  - intros _. by exists (f m).
  - intros [a H]. discriminate.
  - intros [m H]. discriminate.
Qed.

(** C3, as amended.  Each of the five fragment methods throws an error
    whose message contains "Fragments not yet available" (with a capital F,
    as the source spells it) exactly when the viewer has no model; when a
    model is loaded the method succeeds for any valid fragment id: it
    returns normally exactly when the viewer has a model, the engine's
    queries, modelled from the spec, answering for whatever id they get. *)
Theorem fragment_methods_need_a_model (this : Utilities) (fragId : Z)
    (outScale : Vector3) (outRotation : Quaternion) (outPosition : Vector3)
    (scale : option Vector3) (rotation : option Quaternion) (position : option Vector3) :
  let phrase := "Fragments not yet available" in
  let noModel := model (viewer this) = None in
  let hasModel := is_Some (model (viewer this)) in
  ((throwsContaining phrase (getFragmentBounds this fragId) <-> noModel) /\
   (throwsContaining phrase (getFragmentOrigTransform this fragId) <-> noModel) /\
   (throwsContaining phrase
      (getFragmentAuxTransform this fragId outScale outRotation outPosition) <-> noModel) /\
   (throwsContaining phrase
      (setFragmentAuxTransform this fragId scale rotation position) <-> noModel) /\
   (throwsContaining phrase (getFragmentTransform this fragId) <-> noModel)) /\
  ((returns (getFragmentBounds this fragId) <-> hasModel) /\
   (returns (getFragmentOrigTransform this fragId) <-> hasModel) /\
   (returns (getFragmentAuxTransform this fragId outScale outRotation outPosition) <-> hasModel) /\
   (returns (setFragmentAuxTransform this fragId scale rotation position) <-> hasModel) /\
   (returns (getFragmentTransform this fragId) <-> hasModel)).
Proof.
  cbv zeta. split.
  - repeat split; apply model_guard_throws.
  - repeat split; apply model_guard_returns.
Qed.

(** C3 as stated fails: without a model [getFragmentBounds] throws, but the
    message does not contain "fragments not yet available" in lower case. *)
Lemma fragment_message_lacks_lowercase_phrase :
  model (viewer Sample.fresh) = None /\
  exists msg,
    getFragmentBounds Sample.fresh 1 = Throw msg /\
    includes "fragments not yet available" msg = false.
Proof. split; [reflexivity|]. exists fragmentsNotAvailable. split; reflexivity. Qed.

Lemma animTransformOf_update (frags : FragmentList) (fragId : Z)
    (scale : option Vector3) (rotation : option Quaternion) (position : option Vector3) :
  animTransformOf (updateAnimTransform frags fragId scale rotation position) fragId =
  {| Engine.scale := default (Engine.scale (animTransformOf frags fragId)) scale;
     Engine.rotation := default (Engine.rotation (animTransformOf frags fragId)) rotation;
     Engine.position := default (Engine.position (animTransformOf frags fragId)) position |}.
Proof.
  unfold animTransformOf at 1. unfold updateAnimTransform. cbn [animxforms].
  by rewrite lookup_insert_eq.
Qed.

Lemma animTransformOf_update_other (frags : FragmentList) (fragId other : Z)
    (scale : option Vector3) (rotation : option Quaternion) (position : option Vector3) :
  other <> fragId ->
  animTransformOf (updateAnimTransform frags fragId scale rotation position) other =
  animTransformOf frags other.
Proof.
  intros Hne. unfold animTransformOf, updateAnimTransform. cbn [animxforms].
  by rewrite lookup_insert_ne.
Qed.

(** C4.  With a model loaded, let [(s1, r1, p1)] be the auxiliary transform
    of a fragment as [getFragmentAuxTransform] reads it.  After
    [setFragmentAuxTransform] the same read gives, component by component,
    the value supplied, or the prior value where the component was omitted:
    an omitted scale stays [s1], an omitted rotation [r1], an omitted
    position [p1]. *)
Theorem setFragmentAuxTransform_keeps_omitted (this : Utilities) (fragId : Z)
    (scale : option Vector3) (rotation : option Quaternion) (position : option Vector3)
    (outScale : Vector3) (outRotation : Quaternion) (outPosition : Vector3)
    (s1 : Vector3) (r1 : Quaternion) (p1 : Vector3) :
  getFragmentAuxTransform this fragId outScale outRotation outPosition = Normal (s1, r1, p1) ->
  exists this',
    setFragmentAuxTransform this fragId scale rotation position = Normal this' /\
    getFragmentAuxTransform this' fragId outScale outRotation outPosition =
      Normal (default s1 scale, default r1 rotation, default p1 position).
Proof.
  unfold getFragmentAuxTransform, setFragmentAuxTransform.
  destruct (model (viewer this)) as [m|] eqn:Hm; [|discriminate].
  intros Hprior. injection Hprior as Hs Hr Hp.
  eexists. split; [reflexivity|].
  cbn. unfold getAnimTransform. rewrite animTransformOf_update.
  cbn. by rewrite Hs, Hr, Hp.
Qed.

(** The update of one fragment leaves the auxiliary transform of every
    other fragment as it was. *)
Lemma setFragmentAuxTransform_other_fragments (this this' : Utilities) (fragId other : Z)
    (scale : option Vector3) (rotation : option Quaternion) (position : option Vector3)
    (outScale : Vector3) (outRotation : Quaternion) (outPosition : Vector3) :
  other <> fragId ->
  setFragmentAuxTransform this fragId scale rotation position = Normal this' ->
  getFragmentAuxTransform this' other outScale outRotation outPosition =
  getFragmentAuxTransform this other outScale outRotation outPosition.
Proof.
  unfold getFragmentAuxTransform, setFragmentAuxTransform. intros Hne.
  destruct (model (viewer this)) as [m|] eqn:Hm; [|discriminate].
  intros [= <-]. cbn. unfold getAnimTransform.
  by rewrite animTransformOf_update_other.
Qed.

Lemma setFragmentAuxTransform_keeps_omitted_witness :
  let zero := {| vx := 0; vy := 0; vz := 0 |}%Qc in
  let q0 := {| qx := 0; qy := 0; qz := 0; qw := 0 |}%Qc in
  let s1 := {| vx := Qc_of_Z 2; vy := Qc_of_Z 3; vz := Qc_of_Z 4 |} in
  let r1 := {| qx := 1; qy := 0; qz := 0; qw := 0 |}%Qc in
  let p := {| vx := Qc_of_Z 5; vy := Qc_of_Z 6; vz := Qc_of_Z 7 |} in
  getFragmentAuxTransform Sample.loaded 1 zero q0 zero = Normal (s1, r1, zero) /\
  exists this',
    setFragmentAuxTransform Sample.loaded 1 None None (Some p) = Normal this' /\
    getFragmentAuxTransform this' 1 zero q0 zero = Normal (s1, r1, p).
Proof.
  intros zero q0 s1 r1 p. split; [reflexivity|].
  apply (setFragmentAuxTransform_keeps_omitted Sample.loaded 1 None None (Some p)
           zero q0 zero s1 r1 zero).
  reflexivity.
Defined.

(** ** Enumeration of nodes and fragments *)

Lemma foldl_push (ids acc : list Z) :
  foldl (fun s id => push id s) acc ids = acc ++ ids.
Proof.
  revert acc. induction ids as [|id ids IH]; intros acc; simpl.
  - by rewrite app_nil_r.
  - rewrite IH. unfold push. by rewrite <- app_assoc.
Qed.

Lemma foldl_guarded {S : Type} (keep : Z -> bool) (callback : Z -> S -> S)
    (ids : list Z) (s : S) :
  foldl (fun s id => if keep id then callback id s else s) s ids =
  foldl (fun s id => callback id s) s (List.filter keep ids).
Proof.
  revert s. induction ids as [|id ids IH]; intros s; simpl; [done|].
  destruct (keep id); simpl; apply IH.
Qed.

Lemma getObjectTree_available {R : Type} (v : Viewer3D) (tree : InstanceTree)
    (onSuccess : InstanceTree -> R) (onError : string -> R) :
  availableTree v = Some tree -> getObjectTree v onSuccess onError = onSuccess tree.
Proof.
  unfold availableTree, getObjectTree.
  destruct (model v) as [m|]; [|discriminate].
  destruct (objectTree m) as [err|t]; [discriminate|]. by intros [= ->].
Qed.

Lemma getObjectTree_unavailable (v : Viewer3D) :
  availableTree v = None ->
  exists err, forall (R : Type) (onSuccess : InstanceTree -> R) (onError : string -> R),
    getObjectTree v onSuccess onError = onError err.
Proof.
  unfold availableTree, getObjectTree.
  destruct (model v) as [m|]; [|by exists (noModelError v)].
  destruct (objectTree m) as [err|t]; [by exists err | discriminate].
Qed.

Lemma listNodes_available (this : Utilities) (tree : InstanceTree) (parentId : option Z) :
  availableTree (viewer this) = Some tree ->
  listNodes this parentId = Resolved (nodesUnder tree (default (getRootId tree) parentId) true).
Proof.
  intros H. unfold listNodes. rewrite (getObjectTree_available _ _ _ _ H).
  unfold enumNodeChildren. by rewrite foldl_push.
Qed.

Lemma listLeafNodes_available (this : Utilities) (tree : InstanceTree) (parentId : option Z) :
  availableTree (viewer this) = Some tree ->
  listLeafNodes this parentId =
  Resolved (List.filter (fun id => (getChildCount tree id =? 0)%Z)
              (nodesUnder tree (default (getRootId tree) parentId) true)).
Proof.
  intros H. unfold listLeafNodes. rewrite (getObjectTree_available _ _ _ _ H).
  unfold enumNodeChildren.
  rewrite (foldl_guarded (fun id => (getChildCount tree id =? 0)%Z) push).
  by rewrite foldl_push.
Qed.

Lemma listFragments_available (this : Utilities) (tree : InstanceTree) (parentId : option Z) :
  availableTree (viewer this) = Some tree ->
  listFragments this parentId =
  Resolved (fragmentsUnder tree (default (getRootId tree) parentId) true).
Proof.
  intros H. unfold listFragments. rewrite (getObjectTree_available _ _ _ _ H).
  unfold enumNodeFragments. by rewrite foldl_push.
Qed.

(** C5.  When the object tree is available, [listLeafNodes] resolves with
    the ids [listNodes] resolves with, in the same order, less those whose
    child count, as the tree reports it, is not zero. *)
Theorem listLeafNodes_filters_listNodes (this : Utilities) (tree : InstanceTree)
    (parentId : option Z) :
  availableTree (viewer this) = Some tree ->
  exists ids,
    listNodes this parentId = Resolved ids /\
    listLeafNodes this parentId =
      Resolved (List.filter (fun id => (getChildCount tree id =? 0)%Z) ids).
Proof.
  intros H. eexists. split.
  - by apply listNodes_available.
  - by apply listLeafNodes_available.
Qed.

(** The scenario of the specification: all nodes [1, 2, 3, 4], leaves
    [2, 3, 4]. *)
Lemma listLeafNodes_filters_listNodes_witness :
  availableTree (viewer Sample.loaded) = Some Sample.tree /\
  exists ids,
    listNodes Sample.loaded None = Resolved ids /\
    listLeafNodes Sample.loaded None =
      Resolved (List.filter (fun id => (getChildCount Sample.tree id =? 0)%Z) ids).
Proof.
  split; [reflexivity|].
  apply (listLeafNodes_filters_listNodes Sample.loaded Sample.tree None). reflexivity.
Defined.

Example scenario_listNodes : listNodes Sample.loaded None = Resolved [1; 2; 3; 4]%Z.
Proof. reflexivity. Qed.

Example scenario_listLeafNodes : listLeafNodes Sample.loaded None = Resolved [2; 3; 4]%Z.
Proof. reflexivity. Qed.

(** Each push form is its pull form replayed on the callback. *)
Lemma enumerateNodes_replay {S : Type} (this : Utilities) (callback : Z -> S -> S)
    (parent : option Z) (s : S) :
  enumerateNodes this callback parent s = replay callback s (listNodes this parent).
Proof.
  destruct (availableTree (viewer this)) as [tree|] eqn:H.
  - rewrite (listNodes_available _ _ _ H). unfold enumerateNodes.
    by rewrite (getObjectTree_available _ _ _ _ H).
  - destruct (getObjectTree_unavailable _ H) as [err Herr].
    unfold enumerateNodes, listNodes. by rewrite !Herr.
Qed.

Lemma enumerateLeafNodes_replay {S : Type} (this : Utilities) (callback : Z -> S -> S)
    (parent : option Z) (s : S) :
  enumerateLeafNodes this callback parent s = replay callback s (listLeafNodes this parent).
Proof.
  destruct (availableTree (viewer this)) as [tree|] eqn:H.
  - rewrite (listLeafNodes_available _ _ _ H). unfold enumerateLeafNodes.
    rewrite (getObjectTree_available _ _ _ _ H). unfold enumNodeChildren. simpl.
    by rewrite (foldl_guarded (fun id => (getChildCount tree id =? 0)%Z) callback).
  - destruct (getObjectTree_unavailable _ H) as [err Herr].
    unfold enumerateLeafNodes, listLeafNodes. by rewrite !Herr.
Qed.

Lemma enumerateFragments_replay {S : Type} (this : Utilities) (callback : Z -> S -> S)
    (parent : option Z) (s : S) :
  enumerateFragments this callback parent s = replay callback s (listFragments this parent).
Proof.
  destruct (availableTree (viewer this)) as [tree|] eqn:H.
  - rewrite (listFragments_available _ _ _ H). unfold enumerateFragments.
    by rewrite (getObjectTree_available _ _ _ _ H).
  - destruct (getObjectTree_unavailable _ H) as [err Herr].
    unfold enumerateFragments, listFragments. by rewrite !Herr.
Qed.

Lemma settlesAs_replay (pull : Promise (list Z)) :
  settlesAs pull (replay (fun id log => push id log) [] pull).
Proof.
  destruct pull as [ids|err]; simpl; [|done]. by rewrite foldl_push.
Qed.

(** C6.  For nodes, leaf nodes and fragments alike, and for every parent
    argument: the pull form resolves with exactly the ids, in order, that
    the push form reports to a callback, and it rejects with the error the
    push form throws; more generally the push form does to any callback
    what feeding it the pull form's ids one by one does; and the pull form
    rejects exactly when the object tree is not available. *)
Theorem pull_forms_agree_with_push_forms (this : Utilities) (parent : option Z) :
  (settlesAs (listNodes this parent)
     (reported (fun callback log => enumerateNodes this callback parent log)) /\
   settlesAs (listLeafNodes this parent)
     (reported (fun callback log => enumerateLeafNodes this callback parent log)) /\
   settlesAs (listFragments this parent)
     (reported (fun callback log => enumerateFragments this callback parent log))) /\
  (forall (S : Type) (callback : Z -> S -> S) (s : S),
     enumerateNodes this callback parent s = replay callback s (listNodes this parent) /\
     enumerateLeafNodes this callback parent s = replay callback s (listLeafNodes this parent) /\
     enumerateFragments this callback parent s = replay callback s (listFragments this parent)) /\
  ((availableTree (viewer this) = None <-> rejected (listNodes this parent)) /\
   (availableTree (viewer this) = None <-> rejected (listLeafNodes this parent)) /\
   (availableTree (viewer this) = None <-> rejected (listFragments this parent))).
Proof.
  split; [|split].
  3: {
    destruct (availableTree (viewer this)) as [tree|] eqn:H.
    - rewrite (listNodes_available _ _ _ H), (listLeafNodes_available _ _ _ H),
        (listFragments_available _ _ _ H).
      repeat split; try done; intros [r Hr]; discriminate.
    - destruct (getObjectTree_unavailable _ H) as [err Herr].
      unfold listNodes, listLeafNodes, listFragments. rewrite !Herr.
      repeat split; try done; intros _; by exists err.
  }
  - unfold reported.
    rewrite enumerateNodes_replay, enumerateLeafNodes_replay, enumerateFragments_replay.
    repeat split; apply settlesAs_replay.
  - intros S callback s.
    by rewrite enumerateNodes_replay, enumerateLeafNodes_replay, enumerateFragments_replay.
Qed.

(** ** Ray casting *)

#[local] Instance nearer_transitive : Transitive nearer.
Proof. intros a b c. unfold nearer. apply Qcle_trans. Qed.

#[local] Instance nearer_total : Total nearer.
Proof. intros a b. unfold nearer. apply (total Qcle). Qed.

(** C7.  For every pair of canvas coordinates, [rayCast] returns what the
    engine's cast leaves in a fresh array for the viewport point the client
    coordinates convert to: the scene objects under that point, each once,
    in ascending order of distance; the empty sequence exactly when nothing
    is hit.  The method has no error path. *)
Theorem rayCast_sorted_by_distance (this : Utilities) (x y : Qc) :
  let vpVec := clientToViewport (impl this) x y in
  let hits := rayHits (impl this) vpVec false None None in
  rayCast this x y = castRayViewport (impl this) vpVec false None None [] /\
  StronglySorted nearer (rayCast this x y) /\
  rayCast this x y ≡ₚ hits /\
  (rayCast this x y = [] <-> hits = []).
Proof.
  cbv zeta. unfold rayCast, castRayViewport. rewrite app_nil_l.
  split; [done|]. split; [apply StronglySorted_merge_sort; apply _|].
  split; [apply merge_sort_Permutation|].
  rewrite <- !Permutation_nil_r.
  by rewrite merge_sort_Permutation.
Qed.

Example rayCast_hit :
  map dbId (rayCast Sample.fresh 1%Qc 1%Qc) = [8; 9; 7]%Z.
Proof. reflexivity. Qed.

Example rayCast_miss : rayCast Sample.fresh 0%Qc 1%Qc = [].
Proof. reflexivity. Qed.

(** ** Overlay meshes *)

Lemma difference_non_member (meshes : gset positive) (mesh : Mesh) :
  mesh ∉ meshes -> meshes ∖ {[mesh]} = meshes.
Proof.
  intros Hfresh. apply set_eq. intros m.
  rewrite elem_of_difference, elem_of_singleton.
  split; [tauto|]. intros Hm. split; [done | by intros ->].
Qed.

Lemma union_then_difference (meshes : gset positive) (mesh : Mesh) :
  (meshes ∪ {[mesh]}) ∖ {[mesh]} = meshes ∖ {[mesh]}.
Proof.
  apply set_eq. intros m. rewrite !elem_of_difference, elem_of_union. tauto.
Qed.

(** For a name that is not inherited the guard is a test for the scene. *)
Lemma guard_not_inherited (this : Utilities) (name : string) :
  inheritedName name = false ->
  (if negb (truthy (getProperty (overlayScenes (impl this)) name))
   then set_impl (createOverlayScene name) this
   else this) = withOverlay name this.
Proof.
  intros Hname. unfold getProperty, withOverlay.
  destruct (overlayScenes (impl this) !! name); [done|]. by rewrite Hname.
Qed.

Lemma withOverlay_lookup (this : Utilities) (name : string) :
  overlayScenes (impl (withOverlay name this)) !! name =
  Some (overlayMeshes (impl this) name).
Proof.
  unfold withOverlay, overlayMeshes.
  destruct (overlayScenes (impl this) !! name) as [meshes|] eqn:Hname; [done|].
  cbn. by rewrite lookup_insert_eq.
Qed.

Lemma withOverlay_meshes (this : Utilities) (name n : string) :
  overlayMeshes (impl (withOverlay name this)) n = overlayMeshes (impl this) n.
Proof.
  unfold withOverlay, overlayMeshes.
  destruct (overlayScenes (impl this) !! name) as [meshes|] eqn:Hname; [done|].
  cbn. destruct (decide (n = name)) as [->|Hn].
  - rewrite lookup_insert_eq. fold (impl this). by rewrite Hname.
  - by rewrite lookup_insert_ne.
Qed.

(** With the scene in place, each method is the engine's change of the
    mesh set of that scene. *)
Lemma addCustomMesh_existing (this : Utilities) (mesh : Mesh) (overlay : option string)
    (meshes : gset positive) :
  overlayScenes (impl this) !! default "UtilitiesOverlay" overlay = Some meshes ->
  addCustomMesh this mesh overlay =
  Normal (set_impl (set_overlayScenes
                      (alter (fun meshes => meshes ∪ {[mesh]})
                         (default "UtilitiesOverlay" overlay))) this).
Proof.
  intros Hname. unfold addCustomMesh, getProperty, addOverlay. cbv zeta.
  rewrite Hname. cbn. by rewrite Hname.
Qed.

Lemma removeCustomMesh_existing (this : Utilities) (mesh : Mesh) (overlay : option string)
    (meshes : gset positive) :
  overlayScenes (impl this) !! default "UtilitiesOverlay" overlay = Some meshes ->
  removeCustomMesh this mesh overlay =
  Normal (set_impl (set_overlayScenes
                      (alter (fun meshes => meshes ∖ {[mesh]})
                         (default "UtilitiesOverlay" overlay))) this).
Proof.
  intros Hname. unfold removeCustomMesh, getProperty, removeOverlay. cbv zeta.
  rewrite Hname. cbn. by rewrite Hname.
Qed.

Lemma addCustomMesh_not_inherited (this : Utilities) (mesh : Mesh) (overlay : option string) :
  inheritedName (default "UtilitiesOverlay" overlay) = false ->
  addCustomMesh this mesh overlay =
  addCustomMesh (withOverlay (default "UtilitiesOverlay" overlay) this) mesh overlay.
Proof.
  intros Hname. unfold addCustomMesh at 1. cbv zeta. rewrite (guard_not_inherited _ _ Hname).
  rewrite (addCustomMesh_existing _ _ _ _ (withOverlay_lookup _ _)).
  unfold addOverlay. by rewrite withOverlay_lookup.
Qed.

Lemma removeCustomMesh_not_inherited (this : Utilities) (mesh : Mesh)
    (overlay : option string) :
  inheritedName (default "UtilitiesOverlay" overlay) = false ->
  removeCustomMesh this mesh overlay =
  removeCustomMesh (withOverlay (default "UtilitiesOverlay" overlay) this) mesh overlay.
Proof.
  intros Hname. unfold removeCustomMesh at 1. cbv zeta.
  rewrite (guard_not_inherited _ _ Hname).
  rewrite (removeCustomMesh_existing _ _ _ _ (withOverlay_lookup _ _)).
  unfold removeOverlay. by rewrite withOverlay_lookup.
Qed.

Lemma overlayMeshes_alter (this : Utilities) (change : gset positive -> gset positive)
    (name n : string) (meshes : gset positive) :
  overlayScenes (impl this) !! name = Some meshes ->
  overlayMeshes (impl (set_impl (set_overlayScenes (alter change name)) this)) n =
  if decide (n = name) then change meshes else overlayMeshes (impl this) n.
Proof.
  intros Hname. unfold overlayMeshes. cbn. fold (impl this).
  destruct (decide (n = name)) as [->|Hn].
  - by rewrite lookup_alter_eq, Hname.
  - by rewrite lookup_alter_ne.
Qed.

Lemma set_impl_id (this : Utilities) (f : Viewer3DImpl -> Viewer3DImpl) :
  overlayScenes (f (impl this)) = overlayScenes (impl this) ->
  clientToViewport (f (impl this)) = clientToViewport (impl this) ->
  rayHits (f (impl this)) = rayHits (impl this) ->
  sceneMissing (f (impl this)) = sceneMissing (impl this) ->
  set_impl f this = this.
Proof.
  destruct this as [[m i e]]. unfold set_impl, impl. cbn.
  destruct (f i) as [scenes c2v hits miss], i as [scenes' c2v' hits' miss']. cbn.
  by intros -> -> -> ->.
Qed.

(** C8, as amended.  For an overlay name that is not one every object
    inherits, and a mesh that is not yet in the named overlay,
    [addCustomMesh] followed by [removeCustomMesh] with the same mesh and
    overlay name both return, and leave the mesh set of that overlay, and
    of every other overlay, as it was before the two calls (the empty set
    for an overlay that did not exist). *)
Theorem addCustomMesh_removeCustomMesh_roundtrip (this : Utilities) (mesh : Mesh)
    (overlay : option string) (n : string) :
  inheritedName (default "UtilitiesOverlay" overlay) = false ->
  mesh ∉ overlayMeshes (impl this) (default "UtilitiesOverlay" overlay) ->
  exists added removed,
    addCustomMesh this mesh overlay = Normal added /\
    removeCustomMesh added mesh overlay = Normal removed /\
    overlayMeshes (impl removed) n = overlayMeshes (impl this) n.
Proof.
  intros Hname Hfresh. set (name := default "UtilitiesOverlay" overlay) in *.
  rewrite (addCustomMesh_not_inherited _ _ _ Hname).
  rewrite (addCustomMesh_existing _ _ _ _ (withOverlay_lookup _ _)). fold name.
  eexists _, _. split; [reflexivity|].
  assert (overlayScenes
            (impl (set_impl (set_overlayScenes
                               (alter (fun meshes => meshes ∪ {[mesh]}) name))
                     (withOverlay name this))) !! name =
          Some (overlayMeshes (impl this) name ∪ {[mesh]})) as Hadded.
  { cbn. fold (impl (withOverlay name this)).
    by rewrite lookup_alter_eq, withOverlay_lookup. }
  rewrite (removeCustomMesh_existing _ _ _ _ Hadded). fold name.
  split; [reflexivity|].
  rewrite (overlayMeshes_alter _ _ _ _ _ Hadded).
  destruct (decide (n = name)) as [->|Hn].
  - rewrite union_then_difference. by apply difference_non_member.
  - rewrite (overlayMeshes_alter _ _ _ _ _ (withOverlay_lookup _ _)).
    destruct (decide (n = name)); [done|]. apply withOverlay_meshes.
Qed.

Lemma addCustomMesh_removeCustomMesh_roundtrip_witness :
  inheritedName (default "UtilitiesOverlay" (Some "markers")) = false /\
  (6%positive ∉ overlayMeshes (impl Sample.loaded)
                  (default "UtilitiesOverlay" (Some "markers"))) /\
  exists added removed,
    addCustomMesh Sample.loaded 6 (Some "markers") = Normal added /\
    removeCustomMesh added 6 (Some "markers") = Normal removed /\
    overlayMeshes (impl removed) "markers" = overlayMeshes (impl Sample.loaded) "markers".
Proof.
  assert (6%positive ∉ overlayMeshes (impl Sample.loaded)
                        (default "UtilitiesOverlay" (Some "markers"))) as Hfresh
    by (by vm_compute).
  split; [reflexivity|]. split; [exact Hfresh|].
  exact (addCustomMesh_removeCustomMesh_roundtrip Sample.loaded 6 (Some "markers") "markers"
           eq_refl Hfresh).
Defined.

(** C8 as stated fails for a mesh that is already in the overlay: the pair
    of calls takes it out.  It also fails under a name every object
    inherits, such as "constructor": the guard finds something truthy, no
    scene is created, and with an engine that throws when asked about a
    scene it does not hold the first call already ends in that error. *)
Lemma roundtrip_drops_member_mesh :
  (overlayMeshes (impl Sample.loaded) "markers" = {[ 5%positive ]} /\
   exists added removed,
     addCustomMesh Sample.loaded 5 (Some "markers") = Normal added /\
     removeCustomMesh added 5 (Some "markers") = Normal removed /\
     overlayMeshes (impl removed) "markers" = ∅) /\
  (inheritedName "constructor" = true /\
   addCustomMesh Sample.fresh 5 (Some "constructor") =
   Throw "Cannot read properties of undefined").
Proof.
  split; [|split; reflexivity].
  split; [reflexivity|]. eexists _, _. repeat split; reflexivity.
Qed.

(** C9, as amended.  For an overlay name that is not one every object
    inherits: removing a mesh that is not in the named overlay returns
    without an error and changes nothing when the overlay exists; when it
    does not exist yet the method creates it, empty, and changes nothing
    else.  Either way the mesh set of every overlay is what it was (empty
    for one that did not exist). *)
Theorem removeCustomMesh_of_non_member (this : Utilities) (mesh : Mesh)
    (overlay : option string) (n : string) :
  inheritedName (default "UtilitiesOverlay" overlay) = false ->
  mesh ∉ overlayMeshes (impl this) (default "UtilitiesOverlay" overlay) ->
  exists this',
    removeCustomMesh this mesh overlay = Normal this' /\
    this' =
      match overlayScenes (impl this) !! default "UtilitiesOverlay" overlay with
      | Some _ => this
      | None => set_impl (createOverlayScene (default "UtilitiesOverlay" overlay)) this
      end /\
    overlayMeshes (impl this') n = overlayMeshes (impl this) n.
Proof.
  intros Hname Hfresh. set (name := default "UtilitiesOverlay" overlay) in *.
  exists (withOverlay name this).
  split; [|split; [reflexivity | apply withOverlay_meshes]].
  rewrite (removeCustomMesh_not_inherited _ _ _ Hname).
  rewrite (removeCustomMesh_existing _ _ _ _ (withOverlay_lookup _ _)). fold name.
  f_equal. apply set_impl_id; [|done..].
  cbn. fold (impl (withOverlay name this)).
  apply alter_id. intros meshes Hlook.
  rewrite withOverlay_lookup in Hlook. injection Hlook as <-.
  by apply difference_non_member.
Qed.

Lemma removeCustomMesh_of_non_member_witness :
  inheritedName (default "UtilitiesOverlay" (Some "markers")) = false /\
  (6%positive ∉ overlayMeshes (impl Sample.loaded)
                  (default "UtilitiesOverlay" (Some "markers"))) /\
  exists this',
    removeCustomMesh Sample.loaded 6 (Some "markers") = Normal this' /\
    this' = Sample.loaded /\
    overlayMeshes (impl this') "markers" = overlayMeshes (impl Sample.loaded) "markers".
Proof.
  assert (6%positive ∉ overlayMeshes (impl Sample.loaded)
                        (default "UtilitiesOverlay" (Some "markers"))) as Hfresh
    by (by vm_compute).
  split; [reflexivity|]. split; [exact Hfresh|].
  exact (removeCustomMesh_of_non_member Sample.loaded 6 (Some "markers") "markers"
           eq_refl Hfresh).
Defined.

(** C9 as stated fails when the named overlay does not exist yet: the call
    changes the overlay state, which gains an (empty) overlay of that name.
    It also fails under a name every object inherits, such as
    "constructor": the guard finds something truthy, no scene is created,
    and with an engine that throws when asked about a scene it does not
    hold the call ends in that error. *)
Lemma removeCustomMesh_creates_missing_overlay :
  (overlayScenes (impl Sample.fresh) !! "UtilitiesOverlay" = None /\
   (5%positive ∉ overlayMeshes (impl Sample.fresh) "UtilitiesOverlay") /\
   exists this',
     removeCustomMesh Sample.fresh 5 None = Normal this' /\
     overlayScenes (impl this') !! "UtilitiesOverlay" = Some ∅) /\
  (inheritedName "constructor" = true /\
   (5%positive ∉ overlayMeshes (impl Sample.fresh) "constructor") /\
   removeCustomMesh Sample.fresh 5 (Some "constructor") =
   Throw "Cannot read properties of undefined").
Proof.
  split.
  - split; [reflexivity|]. split; [by vm_compute|].
    eexists. split; reflexivity.
  - split; [reflexivity|]. split; [by vm_compute | reflexivity].
Qed.

(** ** Further properties of [load] *)

Lemma append_assoc (a b c : string) : (a +:+ b) +:+ c = a +:+ b +:+ c.
Proof.
  induction a as [|x a IH]; [done|].
  change ((String x (a +:+ b)) +:+ c = String x (a +:+ b +:+ c)).
  change (String x ((a +:+ b) +:+ c) = String x (a +:+ b +:+ c)).
  by rewrite IH.
Qed.

Lemma includes_between (pre p post : string) : includes p (pre +:+ p +:+ post) = true.
Proof. apply includes_spec. by exists pre, post. Qed.

(** X1.  On a document that loads, [load] with an index resolves with a
    viewable [v] exactly when the index is not negative and [v] stands at
    that place (counting from zero) in the list of geometry viewables. *)
Theorem load_index_resolves_iff (store : DocumentStore) (documentUrn : string)
    (doc : Document) (n : Z) (v : Viewable) :
  store ("urn:" +:+ documentUrn) = LoadSuccess doc ->
  settled (load store documentUrn (Some (Index n))) = Resolved (Some v) <->
  (0 <= n)%Z /\ search (getRoot doc) "geometry" !! Z.to_nat n = Some v.
Proof.
  intros Hdoc. unfold load, Document_load. rewrite Hdoc. simpl.
  destruct (Z.ltb_spec n (Z.of_nat (length (search (getRoot doc) "geometry")))) as [Hlt|Hge];
    simpl.
  - unfold at_index. destruct (Z.ltb_spec n 0) as [Hneg|Hpos].
    + split; [discriminate | lia].
    + split.
      * intros [= Hv]. done.
      * intros [_ Hv]. by rewrite Hv.
  - split; [discriminate|]. intros [Hpos Hv].
    apply lookup_lt_Some in Hv. lia.
Qed.

Lemma load_index_resolves_iff_witness :
  let v := BubbleNode 4 (Sample.data "g-plan" "geometry") [] in
  Sample.store ("urn:" +:+ "dXJuOmhvdXNl") = LoadSuccess Sample.house /\
  (settled (load Sample.store "dXJuOmhvdXNl" (Some (Index 1))) = Resolved (Some v) <->
   (0 <= 1)%Z /\ search (getRoot Sample.house) "geometry" !! Z.to_nat 1 = Some v).
Proof.
  intros v. split; [reflexivity|].
  apply (load_index_resolves_iff Sample.store "dXJuOmhvdXNl" Sample.house 1 v). reflexivity.
Defined.

(** X2.  On a document that loads, an index at or past the number of
    geometry viewables (the number itself included) rejects; the message
    carries the index, and the engine is asked to display nothing. *)
Theorem load_index_past_count_rejects (store : DocumentStore) (documentUrn : string)
    (doc : Document) (n : Z) :
  store ("urn:" +:+ documentUrn) = LoadSuccess doc ->
  (Z.of_nat (length (search (getRoot doc) "geometry")) <= n)%Z ->
  exists msg,
    load store documentUrn (Some (Index n)) =
      {| settled := Rejected msg; calls := [CallDocumentLoad ("urn:" +:+ documentUrn)] |} /\
    includes (numberToString n) msg = true.
Proof.
  intros Hdoc Hn. exists ("Viewable " +:+ numberToString n +:+ " not found."). split.
  - unfold load, Document_load. rewrite Hdoc. simpl.
    by rewrite (proj2 (Z.ltb_ge _ _) Hn).
  - apply includes_between.
Qed.

Lemma load_index_past_count_rejects_witness :
  Sample.store ("urn:" +:+ "dXJuOmhvdXNl") = LoadSuccess Sample.house /\
  (Z.of_nat (length (search (getRoot Sample.house) "geometry")) <= 2)%Z /\
  exists msg,
    load Sample.store "dXJuOmhvdXNl" (Some (Index 2)) =
      {| settled := Rejected msg; calls := [CallDocumentLoad ("urn:" +:+ "dXJuOmhvdXNl")] |} /\
    includes (numberToString 2) msg = true.
Proof.
  split; [reflexivity|]. split; [by vm_compute|].
  apply (load_index_past_count_rejects Sample.store "dXJuOmhvdXNl" Sample.house 2).
  - reflexivity.
  - by vm_compute.
Defined.

(** X3.  When the loader reports a failure, [load] rejects whatever the
    selector is (it is never looked at), with a message that carries both
    the engine's message and its error code, and asks for no display. *)
Theorem load_failure_ignores_selector (store : DocumentStore) (documentUrn : string)
    (errorCode : Z) (errorMsg : string) (viewableId viewableId' : option ViewableId) :
  store ("urn:" +:+ documentUrn) = LoadError errorCode errorMsg ->
  exists msg,
    load store documentUrn viewableId =
      {| settled := Rejected msg; calls := [CallDocumentLoad ("urn:" +:+ documentUrn)] |} /\
    includes errorMsg msg = true /\
    includes (numberToString errorCode) msg = true /\
    load store documentUrn viewableId' = load store documentUrn viewableId.
Proof.
  intros Hdoc.
  exists ("Document loading error: " +:+ errorMsg +:+ " (" +:+ numberToString errorCode +:+ ")").
  split; [|split; [|split]].
  - unfold load, Document_load. by rewrite Hdoc.
  - apply includes_between.
  - replace ("Document loading error: " +:+ errorMsg +:+ " (" +:+
               numberToString errorCode +:+ ")")
      with (("Document loading error: " +:+ errorMsg +:+ " (") +:+
              numberToString errorCode +:+ ")")
      by (by rewrite !append_assoc).
    apply includes_between.
  - unfold load, Document_load. by rewrite Hdoc.
Qed.

Lemma load_failure_ignores_selector_witness :
  Sample.store ("urn:" +:+ "b3RoZXI") = LoadError 4 "resource not found" /\
  exists msg,
    load Sample.store "b3RoZXI" (Some (Guid "g-3d")) =
      {| settled := Rejected msg; calls := [CallDocumentLoad ("urn:" +:+ "b3RoZXI")] |} /\
    includes "resource not found" msg = true /\
    includes (numberToString 4) msg = true /\
    load Sample.store "b3RoZXI" (Some (Index 7)) =
      load Sample.store "b3RoZXI" (Some (Guid "g-3d")).
Proof.
  split; [reflexivity|].
  apply (load_failure_ignores_selector Sample.store "b3RoZXI" 4 "resource not found"
           (Some (Guid "g-3d")) (Some (Index 7))).
  reflexivity.
Defined.

(** X4.  Whatever the store, the urn and the selector: when [load]
    resolves, the document did load and the engine was asked, once, to
    display in that document the very value the promise resolves with;
    when [load] rejects, the engine was asked to display nothing.  In both
    cases the document loader was called first, and once. *)
Theorem load_displays_what_it_resolves (store : DocumentStore) (documentUrn : string)
    (viewableId : option ViewableId) :
  let run := load store documentUrn viewableId in
  match settled run with
  | Resolved viewable =>
      exists doc,
        store ("urn:" +:+ documentUrn) = LoadSuccess doc /\
        calls run = [CallDocumentLoad ("urn:" +:+ documentUrn);
                     CallLoadDocumentNode doc viewable]
  | Rejected _ => calls run = [CallDocumentLoad ("urn:" +:+ documentUrn)]
  end.
Proof.
  cbv zeta. unfold load, Document_load.
  destruct (store ("urn:" +:+ documentUrn)) as [doc|code msg] eqn:Hdoc; simpl; [|done].
  destruct (default (Index 0) viewableId) as [g|n]; simpl.
  - destruct (findByGuid (getRoot doc) g); simpl; [by exists doc | done].
  - destruct (n <? _)%Z; simpl; [by exists doc | done].
Qed.

(** X5.  On a document that loads, [load] with a guid either resolves with
    the viewable the lookup in the document tree finds (never with
    [undefined]), or the lookup finds nothing and [load] rejects with a
    message that carries the guid. *)
Theorem load_guid_resolves_or_names_guid (store : DocumentStore) (documentUrn : string)
    (doc : Document) (g : string) :
  store ("urn:" +:+ documentUrn) = LoadSuccess doc ->
  (exists v,
     findByGuid (getRoot doc) g = Some v /\
     settled (load store documentUrn (Some (Guid g))) = Resolved (Some v)) \/
  (exists msg,
     findByGuid (getRoot doc) g = None /\
     settled (load store documentUrn (Some (Guid g))) = Rejected msg /\
     includes g msg = true).
Proof.
  intros Hdoc. unfold load, Document_load. rewrite Hdoc. simpl.
  destruct (findByGuid (getRoot doc) g) as [v|]; simpl.
  - left. by exists v.
  - right. eexists. split; [done|]. split; [done|]. apply includes_between.
Qed.

Lemma load_guid_resolves_or_names_guid_witness :
  Sample.store ("urn:" +:+ "dXJuOmhvdXNl") = LoadSuccess Sample.house /\
  ((exists v,
      findByGuid (getRoot Sample.house) "g-sheet" = Some v /\
      settled (load Sample.store "dXJuOmhvdXNl" (Some (Guid "g-sheet"))) = Resolved (Some v)) \/
   (exists msg,
      findByGuid (getRoot Sample.house) "g-sheet" = None /\
      settled (load Sample.store "dXJuOmhvdXNl" (Some (Guid "g-sheet"))) = Rejected msg /\
      includes "g-sheet" msg = true)).
Proof.
  split; [reflexivity|].
  apply (load_guid_resolves_or_names_guid Sample.store "dXJuOmhvdXNl" Sample.house "g-sheet").
  reflexivity.
Defined.

(** ** Further properties of the enumerations *)

Lemma foldl_guarded_agree {S : Type} (keep : Z -> bool) (callback callback' : Z -> S -> S)
    (ids : list Z) (s : S) :
  (forall id s, keep id = true -> callback id s = callback' id s) ->
  foldl (fun s id => if keep id then callback id s else s) s ids =
  foldl (fun s id => if keep id then callback' id s else s) s ids.
Proof.
  intros Hagree. revert s. induction ids as [|id ids IH]; intros s; simpl; [done|].
  destruct (keep id) eqn:Hkeep; [|apply IH].
  rewrite (Hagree id s Hkeep). apply IH.
Qed.

(** X7.  For any parent arguments, the three pull forms settle alike: all
    resolve, or all reject with one and the same reason, which is then also
    the message of the error each push form throws. *)
Theorem enumerations_settle_together (this : Utilities) (p1 p2 p3 : option Z) :
  (exists nodes leaves frags,
     listNodes this p1 = Resolved nodes /\
     listLeafNodes this p2 = Resolved leaves /\
     listFragments this p3 = Resolved frags) \/
  (exists err,
     (listNodes this p1 = Rejected err /\
      listLeafNodes this p2 = Rejected err /\
      listFragments this p3 = Rejected err) /\
     (forall (S : Type) (callback : Z -> S -> S) (s : S),
        enumerateNodes this callback p1 s = Throw err /\
        enumerateLeafNodes this callback p2 s = Throw err /\
        enumerateFragments this callback p3 s = Throw err)).
Proof.
  destruct (availableTree (viewer this)) as [tree|] eqn:H.
  - left. do 3 eexists.
    rewrite (listNodes_available _ _ _ H), (listLeafNodes_available _ _ _ H),
      (listFragments_available _ _ _ H). done.
  - right. destruct (getObjectTree_unavailable _ H) as [err Herr]. exists err.
    split.
    + unfold listNodes, listLeafNodes, listFragments. by rewrite !Herr.
    + intros S callback s.
      unfold enumerateNodes, enumerateLeafNodes, enumerateFragments. by rewrite !Herr.
Qed.

(** X8.  [enumerateLeafNodes] never runs the callback on a node that has
    children: two callbacks that do the same on every id whose child count
    is zero give the same result, whatever they would do on other ids. *)
Theorem enumerateLeafNodes_skips_inner_nodes {S : Type} (this : Utilities)
    (tree : InstanceTree) (callback callback' : Z -> S -> S) (parent : option Z) (s : S) :
  availableTree (viewer this) = Some tree ->
  (forall id s, getChildCount tree id = 0%Z -> callback id s = callback' id s) ->
  enumerateLeafNodes this callback parent s = enumerateLeafNodes this callback' parent s.
Proof.
  intros Htree Hagree. unfold enumerateLeafNodes.
  rewrite !(getObjectTree_available _ _ _ _ Htree). unfold enumNodeChildren. f_equal.
  apply (foldl_guarded_agree (fun id => (getChildCount tree id =? 0)%Z)).
  intros id s' Hleaf. apply Hagree. by apply Z.eqb_eq.
Qed.

Lemma enumerateLeafNodes_skips_inner_nodes_witness :
  let record := fun (id : Z) (log : list Z) => push id log in
  let skipOne := fun (id : Z) (log : list Z) => if decide (id = 1%Z) then log else push id log in
  availableTree (viewer Sample.loaded) = Some Sample.tree /\
  (forall id log, getChildCount Sample.tree id = 0%Z -> record id log = skipOne id log) /\
  enumerateLeafNodes Sample.loaded record None [] =
  enumerateLeafNodes Sample.loaded skipOne None [].
Proof.
  intros record skipOne.
  assert (forall id log, getChildCount Sample.tree id = 0%Z -> record id log = skipOne id log)
    as Hagree.
  { intros id log. unfold record, skipOne, Sample.tree. cbn [getChildCount].
    destruct (decide (id = 1%Z)) as [->|]; [|done]. by vm_compute. }
  split; [reflexivity|]. split; [exact Hagree|].
  exact (enumerateLeafNodes_skips_inner_nodes Sample.loaded Sample.tree record skipOne None []
           eq_refl Hagree).
Defined.

(** X9.  When the object tree is available, leaving the parent out is the
    same as passing the tree's root id, for the three pull forms and the
    three push forms alike. *)
Theorem omitted_parent_is_root {S : Type} (this : Utilities) (tree : InstanceTree)
    (callback : Z -> S -> S) (s : S) :
  availableTree (viewer this) = Some tree ->
  let root := Some (getRootId tree) in
  (listNodes this None = listNodes this root /\
   listLeafNodes this None = listLeafNodes this root /\
   listFragments this None = listFragments this root) /\
  (enumerateNodes this callback None s = enumerateNodes this callback root s /\
   enumerateLeafNodes this callback None s = enumerateLeafNodes this callback root s /\
   enumerateFragments this callback None s = enumerateFragments this callback root s).
Proof.
  intros Htree. cbv zeta. split.
  - by rewrite !(listNodes_available _ _ _ Htree), !(listLeafNodes_available _ _ _ Htree),
      !(listFragments_available _ _ _ Htree).
  - rewrite !enumerateNodes_replay, !enumerateLeafNodes_replay, !enumerateFragments_replay.
    by rewrite !(listNodes_available _ _ _ Htree), !(listLeafNodes_available _ _ _ Htree),
      !(listFragments_available _ _ _ Htree).
Qed.

Lemma omitted_parent_is_root_witness :
  availableTree (viewer Sample.loaded) = Some Sample.tree /\
  (listNodes Sample.loaded None = listNodes Sample.loaded (Some (getRootId Sample.tree)) /\
   listLeafNodes Sample.loaded None = listLeafNodes Sample.loaded (Some (getRootId Sample.tree)) /\
   listFragments Sample.loaded None = listFragments Sample.loaded (Some (getRootId Sample.tree))) /\
  (enumerateNodes Sample.loaded push None [] =
     enumerateNodes Sample.loaded push (Some (getRootId Sample.tree)) [] /\
   enumerateLeafNodes Sample.loaded push None [] =
     enumerateLeafNodes Sample.loaded push (Some (getRootId Sample.tree)) [] /\
   enumerateFragments Sample.loaded push None [] =
     enumerateFragments Sample.loaded push (Some (getRootId Sample.tree)) []).
Proof.
  split; [reflexivity|].
  exact (omitted_parent_is_root Sample.loaded Sample.tree push [] eq_refl).
Defined.
